(** * EstimatePI: a Monte Carlo estimate of pi, chunked over a process pool

    A shallow embedding of [main.py]:
    - [_monte_carlo] (the chunk estimator, [estimate] in the specification),
    - [monte_carlo] (the chunked aggregator, [estimate_chunked]).

    Modelling choices.
    - Python [int] is [Z]; [//] is [Z.div] (both round towards minus infinity)
      and raises [ZeroDivisionError] on a zero divisor.
    - Python [float] values are exact rationals ([Q]) or [NaN]; the rounding
      of binary64 arithmetic is not modelled.  Equality of estimates is
      therefore [Qeq], written [==].
    - The process-wide NumPy generator is a stream of samples threaded through
      the calls; every worker process of the pool owns a stream of its own.
    - Exceptions are values of [exn]; a call either returns a value together
      with the new generator state, or raises. *)

From Stdlib Require Import ZArith QArith List Permutation Lia Lqa.
Import ListNotations.

Local Open Scope Z_scope.

(** ** Exceptions and outcomes *)

(** The exception classes the interpreter can raise on the paths of
    [main.py], and the two error kinds of the specification's taxonomy. *)
Inductive exn : Type :=
| ZeroDivisionError   (* int / 0, int // 0 *)
| ValueError          (* negative dimension, math domain error *)
| TypeError           (* round(int, float) *)
| InvalidArgument     (* specification only *)
| ExecutionFailure.   (* specification only *)

Inductive outcome (S A : Type) : Type :=
| Ok (a : A) (s : S)
| Raise (e : exn).
Arguments Ok {S A} a s.
Arguments Raise {S A} e.

(** Computations over a state [S] that may raise. *)
Definition M (S A : Type) : Type := S -> outcome S A.

Definition ret {S A} (a : A) : M S A := fun s => Ok a s.
Definition raise {S A} (e : exn) : M S A := fun _ => Raise e.
Definition bind {S A B} (m : M S A) (k : A -> M S B) : M S B :=
  fun s => match m s with
           | Ok a s' => k a s'
           | Raise e => Raise e
           end.

Notation "x <- m ;; k" := (bind m (fun x => k))
  (at level 61, m at next level, right associativity).

(** What the caller observes: the returned value or the exception. *)
Definition observe {S A} (o : outcome S A) : A + exn :=
  match o with
  | Ok a _ => inl a
  | Raise e => inr e
  end.

(** Evaluation of a list of computations from left to right, as a list
    comprehension does: the first exception ends it. *)
Fixpoint mapM {S A B} (f : A -> M S B) (l : list A) : M S (list B) :=
  match l with
  | [] => ret []
  | a :: l' => b <- f a ;; bs <- mapM f l' ;; ret (b :: bs)
  end.

(** ** Floats *)

Inductive pyfloat : Type :=
| Fin (q : Q)
| NaN.

Definition fadd (a b : pyfloat) : pyfloat :=
  match a, b with
  | Fin x, Fin y => Fin (x + y)%Q
  | _, _ => NaN
  end.

Definition fmul (a b : pyfloat) : pyfloat :=
  match a, b with
  | Fin x, Fin y => Fin (x * y)%Q
  | _, _ => NaN
  end.

(** [a / b] on two Python ints: true division. *)
Definition truediv {S} (a b : Z) : M S pyfloat :=
  if b =? 0 then raise ZeroDivisionError
  else ret (Fin (inject_Z a / inject_Z b)%Q).

(** [a // b] on two Python ints. *)
Definition floordiv {S} (a b : Z) : M S Z :=
  if b =? 0 then raise ZeroDivisionError else ret (a / b).

(** [range(k)] *)
Definition range (k : Z) : list nat := seq 0 (Z.to_nat k).

(** ** The random source *)

(** A generator state: the samples still to come, each in [0, 1). *)
Definition rng : Type := nat -> Q.


Definition advance (k : nat) (g : rng) : rng := fun i => g (k + i)%nat.

(** [np.random.rand(n)]: the next [n] samples; a negative dimension is a
    [ValueError]. *)
Definition np_random_rand (n : Z) : M rng (list Q) :=
  fun g =>
    if n <? 0 then Raise ValueError
    else let k := Z.to_nat n in Ok (map g (seq 0 k)) (advance k g).

(** ** NumPy array operations used by the estimator *)

Definition np_square (a : list Q) : list Q := map (fun v => v * v)%Q a.

(** [np.add] on two arrays of the same length. *)
Definition np_add (a b : list Q) : list Q :=
  map (fun p => fst p + snd p)%Q (combine a b).

(** [xy[xy <= 1]]: the elements selected by the boolean mask. *)
Definition select_le1 (xy : list Q) : list Q :=
  filter (fun v => Qle_bool v 1) xy.

(** [.size] *)
Definition size (a : list Q) : Z := Z.of_nat (length a).

(** [np.average] of a list of floats: NaN (with a warning) on the empty
    list, the sum divided by the number of elements otherwise. *)
Definition fsum (l : list pyfloat) : pyfloat := fold_left fadd l (Fin 0).

Definition fdiv_count (s : pyfloat) (k : nat) : pyfloat :=
  match s with
  | Fin x => Fin (x / inject_Z (Z.of_nat k))%Q
  | NaN => NaN
  end.

Definition np_average (l : list pyfloat) : pyfloat :=
  match l with
  | [] => NaN
  | _ => fdiv_count (fsum l) (length l)
  end.

(** ** [_monte_carlo] *)

Definition _monte_carlo (n : Z) : M rng pyfloat :=
  x <- np_random_rand n ;;
  y <- np_random_rand n ;;
  let xy := np_add (np_square x) (np_square y) in
  r <- truediv (size (select_le1 xy)) n ;;
  ret (fmul r (Fin 4)).

(** ** The process pool *)

(** A future returned by [executor.submit(_monte_carlo, arg)]: the argument
    of the call and the worker task that runs it. *)
Record Future : Type := { fut_task : nat; fut_arg : Z }.

Definition submit (arg : Z) (task : nat) : Future :=
  {| fut_task := task; fut_arg := arg |}.

(** [future.result()]: the value the task returned in its worker, or the
    exception it raised there.  The worker's generator is its own. *)
Definition result {S} (workers : nat -> rng) (f : Future) : M S pyfloat :=
  fun s => match _monte_carlo (fut_arg f) (workers (fut_task f)) with
           | Ok v _ => Ok v s
           | Raise e => Raise e
           end.

(** ** [monte_carlo] *)

(** [-math.log10(num_limit)] is a float (or a [ValueError] when
    [num_limit <= 0]), and [round] refuses a float as its second argument. *)
Definition round_log10 {S} (n num_limit : Z) : M S Z :=
  if num_limit <=? 0 then raise ValueError else raise TypeError.

(** Lines 66 and 67: the chunk count. *)
Definition safe_n0 {S} (n num_limit : Z) : M S Z :=
  if n >=? num_limit then ret n else round_log10 n num_limit.

Definition chunk_count {S} (n num_limit : Z) : M S Z :=
  n0 <- safe_n0 n num_limit ;;
  floordiv n0 num_limit.

(** Line 71: the futures of the submitted tasks. *)
Definition dispatch {S} (n num_limit : Z) : M S (list Future) :=
  n_range <- chunk_count n num_limit ;;
  ret (map (submit num_limit) (range n_range)).

Definition monte_carlo (n num_limit : Z) (workers : nat -> rng) : M rng pyfloat :=
  if n <=? num_limit then _monte_carlo n
  else
    futures <- dispatch n num_limit ;;
    results <- mapM (result workers) futures ;;
    ret (np_average results).

(** ** Reading the estimator: points, the quadrant test, the count *)

(** The [n] points [_monte_carlo n] samples from the generator [g]: the
    first [n] samples are the abscissae, the next [n] the ordinates. *)
Definition points (n : Z) (g : rng) : list (Q * Q) :=
  let k := Z.to_nat n in
  combine (map g (seq 0 k)) (map (advance k g) (seq 0 k)).

Definition norm2 (p : Q * Q) : Q := (fst p * fst p + snd p * snd p)%Q.

Definition inside (p : Q * Q) : bool := Qle_bool (norm2 p) 1.

Definition count_inside (n : Z) (g : rng) : Z :=
  Z.of_nat (length (filter inside (points n g))).

(** The value [_monte_carlo n] returns on [g] when it returns. *)
Definition estimate_value (n : Z) (g : rng) : pyfloat :=
  Fin (inject_Z (count_inside n g) / inject_Z n * 4)%Q.

(** The estimates of the chunks, in the order of submission. *)
Definition chunk_estimates (n num_limit : Z) (workers : nat -> rng)
  : list pyfloat :=
  map (fun task => estimate_value num_limit (workers task))
      (range (n / num_limit)).

(** The samples the submitted tasks request, summed. *)
Definition requested_samples (futures : list Future) : Z :=
  fold_right Z.add 0 (map fut_arg futures).

(** Equality of floats up to [Qeq]. *)
Definition feq (a b : pyfloat) : Prop :=
  match a, b with
  | Fin x, Fin y => (x == y)%Q
  | NaN, NaN => True
  | _, _ => False
  end.

Definition in_0_4 (v : pyfloat) : Prop :=
  match v with
  | Fin q => (0 <= q <= 4)%Q
  | NaN => False
  end.

(** Sample streams used in the examples: 1/10, 3/10, 5/10, 7/10, 9/10,
    1/10, ... for the calling process, and the same stream started [2 * w]
    samples later for worker [w]. *)
Definition g0 : rng := fun i => (inject_Z (1 + 2 * Z.of_nat (i mod 5)) / 10)%Q.
Definition workers0 : nat -> rng := fun w => advance (2 * w) g0.

(** The example workers with the streams of the first two exchanged. *)
Definition workers1 : nat -> rng :=
  fun w => match w with
           | O => workers0 1
           | S O => workers0 0
           | _ => workers0 w
           end.

(** ** [old_monte_carlo], the estimator written with built-ins *)

(** A list subscript can raise [IndexError], which [exn] does not have: the
    built-in estimator runs over the exceptions of [exn] and that one. *)
Inductive exn_b : Type :=
| Builtin (e : exn)
| IndexError.

Inductive outcome_b (S A : Type) : Type :=
| OkB (a : A) (s : S)
| RaiseB (e : exn_b).
Arguments OkB {S A} a s.
Arguments RaiseB {S A} e.

Definition MB (S A : Type) : Type := S -> outcome_b S A.

Definition retB {S A} (a : A) : MB S A := fun s => OkB a s.
Definition bindB {S A B} (m : MB S A) (k : A -> MB S B) : MB S B :=
  fun s => match m s with
           | OkB a s' => k a s'
           | RaiseB e => RaiseB e
           end.

Notation "x <~ m ;; k" := (bindB m (fun x => k))
  (at level 61, m at next level, right associativity).

(** A computation of [M] run where [exn_b] is raised. *)
Definition liftB {S A} (m : M S A) : MB S A :=
  fun s => match m s with
           | Ok a s' => OkB a s'
           | Raise e => RaiseB (Builtin e)
           end.

Fixpoint mapMB {S A B} (f : A -> MB S B) (l : list A) : MB S (list B) :=
  match l with
  | [] => retB []
  | a :: l' => b <~ f a ;; bs <~ mapMB f l' ;; retB (b :: bs)
  end.

(** [random.random()]: the next sample of the generator. *)
Definition random_random : MB rng Q :=
  fun g => OkB (g 0%nat) (advance 1 g).

(** [l[i]] for [i >= 0]. *)
Definition getitem {S} (l : list Q) (i : nat) : MB S Q :=
  fun s => match nth_error l i with
           | Some v => OkB v s
           | None => RaiseB IndexError
           end.

Definition old_monte_carlo (n : Z) : MB rng pyfloat :=
  x <~ mapMB (fun _ => random_random) (range n) ;;
  y <~ mapMB (fun _ => random_random) (range n) ;;
  xy_norm <~ mapMB (fun i => xi <~ getitem x i ;;
                             yi <~ getitem y i ;;
                             retB (xi * xi + yi * yi)%Q) (range n) ;;
  let kept := filter (fun norm => Qle_bool norm 1) xy_norm in
  r <~ liftB (truediv (Z.of_nat (length kept)) n) ;;
  retB (fmul r (Fin 4)).

(** What the caller of the built-in estimator observes. *)
Definition observeB {S A} (o : outcome_b S A) : A + exn_b :=
  match o with
  | OkB a _ => inl a
  | RaiseB e => inr e
  end.


(** Two generators that give the same first [k] samples. *)
Definition agree (k : nat) (g g' : rng) : Prop :=
  forall i, (i < k)%nat -> g i = g' i.

(** A stream that leaves the example stream after its first ten samples. *)
Definition g0_then_zero : rng :=
  fun i => if (i <? 10)%nat then g0 i else 0%Q.

(** The example workers, all changed after the tasks and samples a run with
    [n = 5], [num_limit = 2] uses. *)
Definition workers0_then_zero : nat -> rng :=
  fun w i => if ((w <? 2) && (i <? 4))%nat%bool then workers0 w i else 0%Q.


(** ** Facts on the monad and on lists *)

Lemma bind_ok {S A B} (m : M S A) (k : A -> M S B) s a s' :
  m s = Ok a s' -> bind m k s = k a s'.
Proof. unfold bind; intros ->; reflexivity. Qed.

Lemma bind_raise {S A B} (m : M S A) (k : A -> M S B) s e :
  m s = Raise e -> bind m k s = Raise e.
Proof. unfold bind; intros ->; reflexivity. Qed.

Lemma mapM_ok {S A B} (f : A -> M S B) (h : A -> B) (l : list A) s :
  (forall a, In a l -> f a s = Ok (h a) s) ->
  mapM f l s = Ok (map h l) s.
Proof.
  induction l as [|a l IH]; intros Hf; [reflexivity|].
  cbn [mapM map].
  rewrite (bind_ok _ _ _ _ _ (Hf a (or_introl eq_refl))).
  rewrite (bind_ok _ _ _ _ _ (IH (fun b Hb => Hf b (or_intror Hb)))).
  reflexivity.
Qed.

Lemma length_range k : 0 <= k -> Z.of_nat (length (range k)) = k.
Proof. intros Hk; unfold range; rewrite length_seq; lia. Qed.

Lemma range_nonpos k : k <= 0 -> range k = [].
Proof.
  intros Hk; unfold range.
  replace (Z.to_nat k) with 0%nat by lia; reflexivity.
Qed.

(** ** Facts on the estimator *)

Lemma np_add_square (x y : list Q) :
  np_add (np_square x) (np_square y) = map norm2 (combine x y).
Proof.
  unfold np_add, np_square.
  revert y; induction x as [|a x IH]; intros [|b y]; cbn; try reflexivity.
  f_equal; apply IH.
Qed.

Lemma filter_map_length {A B} (f : B -> bool) (h : A -> B) (l : list A) :
  length (filter f (map h l)) = length (filter (fun a => f (h a)) l).
Proof.
  induction l as [|a l IH]; cbn; [reflexivity|].
  destruct (f (h a)); cbn; rewrite IH; reflexivity.
Qed.

Lemma size_select (x y : list Q) :
  size (select_le1 (np_add (np_square x) (np_square y)))
  = Z.of_nat (length (filter inside (combine x y))).
Proof.
  unfold size, select_le1; rewrite np_add_square, filter_map_length.
  reflexivity.
Qed.

Lemma length_points n g : 0 <= n -> Z.of_nat (length (points n g)) = n.
Proof.
  intros Hn; unfold points; cbv zeta.
  rewrite length_combine, !length_map, length_seq; lia.
Qed.

Lemma count_inside_bounds n g : 0 <= n -> 0 <= count_inside n g <= n.
Proof.
  intros Hn; unfold count_inside.
  pose proof (filter_length_le inside (points n g)) as Hle.
  pose proof (length_points n g Hn); lia.
Qed.





(** The three behaviours of [_monte_carlo]. *)
Lemma _monte_carlo_pos n g :
  0 < n ->
  _monte_carlo n g
  = Ok (estimate_value n g) (advance (Z.to_nat n) (advance (Z.to_nat n) g)).
Proof.
  intros Hn; unfold _monte_carlo, bind, np_random_rand.
  destruct (Z.ltb_spec n 0) as [?|_]; [lia|].
  destruct (Z.ltb_spec n 0) as [?|_]; [lia|].
  unfold truediv; destruct (Z.eqb_spec n 0) as [?|_]; [lia|].
  cbv zeta; rewrite size_select; reflexivity.
Qed.

Lemma _monte_carlo_zero g : _monte_carlo 0 g = Raise ZeroDivisionError.
Proof. reflexivity. Qed.

Lemma _monte_carlo_neg n g : n < 0 -> _monte_carlo n g = Raise ValueError.
Proof.
  intros Hn; unfold _monte_carlo, bind, np_random_rand.
  destruct (Z.ltb_spec n 0) as [_|?]; [reflexivity|lia].
Qed.

Lemma estimate_value_in_0_4 n g : 0 < n -> in_0_4 (estimate_value n g).
Proof.
  intros Hn; unfold estimate_value, in_0_4.
  pose proof (count_inside_bounds n g ltac:(lia)) as [Hlo Hhi].
  set (k := count_inside n g) in *.
  assert (Hn' : (0 < inject_Z n)%Q) by (unfold Qlt; cbn; lia).
  assert (Hk0 : (0 <= inject_Z k)%Q) by (unfold Qle; cbn; lia).
  assert (Hkn : (inject_Z k <= inject_Z n)%Q) by (unfold Qle; cbn; lia).
  assert (H1 : (0 <= inject_Z k / inject_Z n)%Q).
  { apply Qle_shift_div_l; [exact Hn'|]. lra. }
  assert (H2 : (inject_Z k / inject_Z n <= 1)%Q).
  { apply Qle_shift_div_r; [exact Hn'|]. lra. }
  lra.
Qed.

(** ** Facts on the aggregator *)

Lemma safe_n0_chunk {S} n num_limit (s : S) :
  num_limit < n -> safe_n0 n num_limit s = Ok n s.
Proof.
  intros Hlt; unfold safe_n0.
  rewrite Z.geb_leb; destruct (Z.leb_spec num_limit n); [reflexivity|lia].
Qed.

Lemma round_log10_raises {S} n num_limit (s : S) :
  exists e, round_log10 n num_limit s = Raise e.
Proof. unfold round_log10; destruct (num_limit <=? 0); eexists; reflexivity. Qed.

Lemma chunk_count_chunk {S} n num_limit (s : S) :
  num_limit < n -> chunk_count n num_limit s = floordiv n num_limit s.
Proof.
  intros Hlt; unfold chunk_count.
  rewrite (bind_ok _ _ _ _ _ (safe_n0_chunk n num_limit s Hlt)); reflexivity.
Qed.

Lemma floordiv_ok {S} a b (s : S) : b <> 0 -> floordiv a b s = Ok (a / b) s.
Proof.
  intros Hb; unfold floordiv; destruct (Z.eqb_spec b 0); [contradiction|reflexivity].
Qed.

Lemma dispatch_chunk {S} n num_limit (s : S) :
  num_limit < n -> num_limit <> 0 ->
  dispatch n num_limit s = Ok (map (submit num_limit) (range (n / num_limit))) s.
Proof.
  intros Hlt Hnz; unfold dispatch.
  rewrite (bind_ok _ _ s (n / num_limit) s); [reflexivity|].
  rewrite chunk_count_chunk by exact Hlt; apply floordiv_ok; exact Hnz.
Qed.

Lemma dispatch_zero_limit {S} n (s : S) :
  0 < n -> dispatch n 0 s = Raise ZeroDivisionError.
Proof.
  intros Hn; unfold dispatch; apply bind_raise.
  rewrite chunk_count_chunk by exact Hn; reflexivity.
Qed.

Lemma result_pos {S} workers arg task (s : S) :
  0 < arg ->
  result workers (submit arg task) s = Ok (estimate_value arg (workers task)) s.
Proof.
  intros Harg; unfold result; cbn [fut_arg fut_task submit].
  rewrite _monte_carlo_pos by exact Harg; reflexivity.
Qed.

Lemma monte_carlo_chunk n num_limit workers g :
  0 < num_limit -> num_limit < n ->
  monte_carlo n num_limit workers g
  = Ok (np_average (chunk_estimates n num_limit workers)) g.
Proof.
  intros Hpos Hlt; unfold monte_carlo.
  destruct (Z.leb_spec n num_limit) as [?|_]; [lia|].
  rewrite (bind_ok _ _ _ _ _ (dispatch_chunk n num_limit g Hlt ltac:(lia))).
  erewrite bind_ok; [reflexivity|].
  unfold chunk_estimates.
  rewrite <- (map_map (submit num_limit)
                (fun f => estimate_value (fut_arg f) (workers (fut_task f)))).
  apply mapM_ok; intros f Hf.
  apply in_map_iff in Hf as [task [<- _]].
  rewrite result_pos by exact Hpos; reflexivity.
Qed.

Lemma monte_carlo_direct n num_limit workers g :
  n <= num_limit -> monte_carlo n num_limit workers g = _monte_carlo n g.
Proof.
  intros Hle; unfold monte_carlo.
  destruct (Z.leb_spec n num_limit); [reflexivity|lia].
Qed.

Lemma monte_carlo_zero_limit n workers g :
  0 < n -> monte_carlo n 0 workers g = Raise ZeroDivisionError.
Proof.
  intros Hn; unfold monte_carlo.
  destruct (Z.leb_spec n 0) as [?|_]; [lia|].
  apply bind_raise, dispatch_zero_limit; exact Hn.
Qed.

Lemma monte_carlo_neg_limit n num_limit workers g :
  num_limit < 0 -> num_limit < n ->
  monte_carlo n num_limit workers g = Ok NaN g.
Proof.
  intros Hneg Hlt; unfold monte_carlo.
  destruct (Z.leb_spec n num_limit) as [?|_]; [lia|].
  rewrite (bind_ok _ _ _ _ _ (dispatch_chunk n num_limit g Hlt ltac:(lia))).
  rewrite range_nonpos; [reflexivity|].
  destruct (Z.le_gt_cases 0 n) as [Hn|Hn].
  - Z.div_mod_to_equations; nia.
  - enough (n / num_limit = 0) by lia.
    apply Z.div_small_iff; lia.
Qed.

(** ** Facts on the average *)


Lemma feq_sym a b : feq a b -> feq b a.
Proof. destruct a, b; cbn; auto; intros H; symmetry; exact H. Qed.







(** The sum of [k] values of [0, 4] added to [a] lies in [a, a + 4k]. *)
Lemma fold_fadd_bounds l a :
  Forall in_0_4 l ->
  exists s, fold_left fadd l (Fin a) = Fin s /\
            (a <= s <= a + 4 * inject_Z (Z.of_nat (length l)))%Q.
Proof.
  intros Hl; revert a; induction Hl as [|x l Hx _ IH]; intros a.
  - exists a; split; [reflexivity|].
    change (inject_Z (Z.of_nat (length (@nil pyfloat)))) with 0%Q; lra.
  - destruct x as [q|]; [|contradiction]. cbn in Hx.
    destruct (IH (a + q)%Q) as [s [Hs Hb]].
    exists s; split; [exact Hs|].
    cbn [length]; rewrite Nat2Z.inj_succ.
    unfold Z.succ; rewrite inject_Z_plus. change (inject_Z 1) with 1%Q.
    lra.
Qed.

Lemma np_average_in_0_4 l :
  l <> [] -> Forall in_0_4 l -> in_0_4 (np_average l).
Proof.
  intros Hne Hl.
  destruct (fold_fadd_bounds l 0 Hl) as [s [Hs Hb]].
  destruct l as [|x l]; [contradiction|].
  unfold np_average, fsum; rewrite Hs.
  set (k := length (x :: l)) in *.
  assert (Hk : (0 < inject_Z (Z.of_nat k))%Q).
  { unfold Qlt; subst k; cbn [length inject_Z Qnum Qden]; lia. }
  cbn [fdiv_count in_0_4]; split.
  - apply Qle_shift_div_l; [exact Hk|lra].
  - apply Qle_shift_div_r; [exact Hk|lra].
Qed.

Lemma chunk_estimates_in_0_4 n num_limit workers :
  0 < num_limit -> Forall in_0_4 (chunk_estimates n num_limit workers).
Proof.
  intros Hpos; unfold chunk_estimates; apply Forall_forall; intros v Hv.
  apply in_map_iff in Hv as [task [<- _]].
  apply estimate_value_in_0_4; exact Hpos.
Qed.

Lemma length_chunk_estimates n num_limit workers :
  0 <= n / num_limit ->
  Z.of_nat (length (chunk_estimates n num_limit workers)) = n / num_limit.
Proof.
  intros H; unfold chunk_estimates; rewrite length_map; apply length_range, H.
Qed.

(** ** Facts on the example streams *)


Example estimate_5 : observe (_monte_carlo 5 g0) = inl (Fin (16 # 5)).
Proof. vm_compute; reflexivity. Qed.

Example estimate_chunked_4_2 :
  observe (monte_carlo 4 2 workers0 g0) = inl (Fin (24 # 8)).
Proof. vm_compute; reflexivity. Qed.

Example estimate_chunked_5_2 :
  observe (monte_carlo 5 2 workers0 g0) = inl (Fin (24 # 8)).
Proof. vm_compute; reflexivity. Qed.

Example boundary_point_inside : inside (3 # 5, 4 # 5) = true.
Proof. reflexivity. Qed.

Example estimate_negative : _monte_carlo (-2) g0 = Raise ValueError.
Proof. reflexivity. Qed.

Example estimate_chunked_negative_limit :
  monte_carlo 5 (-1) workers0 g0 = Ok NaN g0.
Proof. reflexivity. Qed.

(** ** The chunked path *)

Lemma requested_samples_submit arg l :
  requested_samples (map (submit arg) l) = Z.of_nat (length l) * arg.
Proof.
  unfold requested_samples; induction l as [|t l IH]; [reflexivity|].
  cbn [map fold_right length fut_arg submit]; rewrite IH; lia.
Qed.

Lemma Forall_submit_arg arg l :
  Forall (fun f => fut_arg f = arg) (map (submit arg) l).
Proof. apply Forall_forall; intros f Hf; apply in_map_iff in Hf as [t [<- _]]; reflexivity. Qed.


(** What [dispatch] submits on the chunked path with a positive limit. *)
Lemma dispatch_summary n limit (g : rng) :
  0 < limit -> limit < n ->
  exists futures,
    dispatch n limit g = Ok futures g /\
    Z.of_nat (length futures) = n / limit /\
    Forall (fun f => fut_arg f = limit) futures /\
    requested_samples futures = n - n mod limit.
Proof.
  intros Hpos Hlt.
  assert (Hk : 0 <= n / limit) by (apply Z.div_pos; lia).
  exists (map (submit limit) (range (n / limit))); repeat split.
  - apply dispatch_chunk; lia.
  - rewrite length_map; apply length_range, Hk.
  - apply Forall_submit_arg.
  - rewrite requested_samples_submit, length_range by exact Hk.
    pose proof (Z.div_mod n limit ltac:(lia)); lia.
Qed.



(** C2: for [n > limit > 0] the chunk count is [n // limit]; the tasks ask
    for [limit] samples each, [n - n mod limit] in all, so the [n mod limit]
    samples beyond the last full chunk are never requested. *)
Theorem chunk_count_truncates n limit workers g :
  0 < limit -> limit < n ->
  chunk_count n limit g = Ok (n / limit) g /\
  (exists futures,
      dispatch n limit g = Ok futures g /\
      Z.of_nat (length futures) = n / limit /\
      Forall (fun f => fut_arg f = limit) futures /\
      requested_samples futures = n - n mod limit /\
      (n mod limit <> 0 -> requested_samples futures < n)) /\
  monte_carlo n limit workers g
  = Ok (np_average (chunk_estimates n limit workers)) g /\
  Z.of_nat (length (chunk_estimates n limit workers)) = n / limit.
Proof.
  intros Hpos Hlt; repeat split.
  - rewrite chunk_count_chunk by exact Hlt; apply floordiv_ok; lia.
  - destruct (dispatch_summary n limit g Hpos Hlt) as [fs [H1 [H2 [H3 H4]]]].
    exists fs; repeat split; try assumption.
    intros Hrem; pose proof (Z.mod_pos_bound n limit Hpos); lia.
  - apply monte_carlo_chunk; assumption.
  - apply length_chunk_estimates, Z.div_pos; lia.
Qed.

(** C2, at [n = 1_500_000], [limit = 1_000_000]: the chunk count is 1, one
    task of 1,000,000 samples is submitted, and 500,000 of the requested
    samples are never generated. *)
Lemma chunk_count_truncates_witness :
  0 < 1000000 /\ 1000000 < 1500000 /\
  chunk_count 1500000 1000000 g0 = Ok 1 g0 /\
  (exists futures,
      dispatch 1500000 1000000 g0 = Ok futures g0 /\
      Z.of_nat (length futures) = 1 /\
      Forall (fun f => fut_arg f = 1000000) futures /\
      requested_samples futures = 1500000 - 500000 /\
      (500000 <> 0 -> requested_samples futures < 1500000)) /\
  monte_carlo 1500000 1000000 workers0 g0
  = Ok (np_average (chunk_estimates 1500000 1000000 workers0)) g0 /\
  Z.of_nat (length (chunk_estimates 1500000 1000000 workers0)) = 1.
Proof.
  assert (H1 : 0 < 1000000) by lia.
  assert (H2 : 1000000 < 1500000) by lia.
  split; [exact H1|]. split; [exact H2|].
  exact (chunk_count_truncates 1500000 1000000 workers0 g0 H1 H2).
Defined.

Example dispatch_1500000 :
  observe (dispatch 1500000 1000000 g0) = inl [submit 1000000 0].
Proof. vm_compute; reflexivity. Qed.

(** ** The direct path *)

(** C3: for [1 <= n <= limit], [monte_carlo n limit] is the call
    [_monte_carlo n] on the caller's generator: same value, same generator
    state afterwards, and that call returns. *)
Theorem monte_carlo_small_delegates n limit workers g :
  1 <= n -> n <= limit ->
  monte_carlo n limit workers g = _monte_carlo n g /\
  exists v g', _monte_carlo n g = Ok v g'.
Proof.
  intros Hn Hle; split.
  - apply monte_carlo_direct; exact Hle.
  - do 2 eexists; apply _monte_carlo_pos; lia.
Qed.

(** C3, at [n = 5], [limit = 1_000_000]. *)
Lemma monte_carlo_small_delegates_witness :
  1 <= 5 /\ 5 <= 1000000 /\
  monte_carlo 5 1000000 workers0 g0 = _monte_carlo 5 g0 /\
  exists v g', _monte_carlo 5 g0 = Ok v g'.
Proof.
  assert (H1 : 1 <= 5) by lia.
  assert (H2 : 5 <= 1000000) by lia.
  split; [exact H1|]. split; [exact H2|].
  exact (monte_carlo_small_delegates 5 1000000 workers0 g0 H1 H2).
Defined.

(** ** The chunk estimator *)





(** ** The aggregate *)

(** C9: for [n > limit >= 1] with [n // limit >= 1], [monte_carlo n limit]
    returns a value of [0, 4]: the mean of chunk estimates of [0, 4]. *)
Theorem monte_carlo_chunked_in_0_4 n limit workers g :
  1 <= limit -> limit < n -> 1 <= n / limit ->
  Forall in_0_4 (chunk_estimates n limit workers) /\
  exists q,
    monte_carlo n limit workers g = Ok (Fin q) g /\
    Fin q = np_average (chunk_estimates n limit workers) /\
    (0 <= q <= 4)%Q.
Proof.
  intros Hpos Hlt Hk.
  pose proof (chunk_estimates_in_0_4 n limit workers ltac:(lia)) as Hall.
  split; [exact Hall|].
  assert (Hne : chunk_estimates n limit workers <> []).
  { intros Hnil.
    pose proof (length_chunk_estimates n limit workers ltac:(lia)) as Hlen.
    rewrite Hnil in Hlen; cbn in Hlen; lia. }
  pose proof (np_average_in_0_4 _ Hne Hall) as Hin.
  rewrite monte_carlo_chunk by lia.
  destruct (np_average (chunk_estimates n limit workers)) as [q|];
    [|contradiction].
  exists q; repeat split; apply Hin.
Qed.

(** C9, at [n = 5], [limit = 2]. *)
Lemma monte_carlo_chunked_in_0_4_witness :
  1 <= 2 /\ 2 < 5 /\ 1 <= 5 / 2 /\
  Forall in_0_4 (chunk_estimates 5 2 workers0) /\
  exists q,
    monte_carlo 5 2 workers0 g0 = Ok (Fin q) g0 /\
    Fin q = np_average (chunk_estimates 5 2 workers0) /\
    (0 <= q <= 4)%Q.
Proof.
  assert (H1 : 1 <= 2) by lia.
  assert (H2 : 2 < 5) by lia.
  assert (H3 : 1 <= 5 / 2) by (vm_compute; discriminate).
  split; [exact H1|]. split; [exact H2|]. split; [exact H3|].
  exact (monte_carlo_chunked_in_0_4 5 2 workers0 g0 H1 H2 H3).
Defined.



Example chunk_estimates_workers0 :
  chunk_estimates 4 2 workers0 = [Fin (8 # 2); Fin (4 # 2)].
Proof. vm_compute; reflexivity. Qed.

Example chunk_estimates_workers1 :
  chunk_estimates 4 2 workers1 = [Fin (4 # 2); Fin (8 # 2)].
Proof. vm_compute; reflexivity. Qed.


(** ** The guard of line 66 *)

(** C8: on the chunked path ([n > num_limit]) the test [n >= num_limit] of
    line 66 holds, so [n0] is [n], the [round] branch (which can only raise)
    is not evaluated, and the chunk count is [n // num_limit]. *)
Theorem chunk_path_first_branch n num_limit workers g :
  num_limit < n ->
  (n <=? num_limit) = false /\
  (n >=? num_limit) = true /\
  safe_n0 n num_limit g = Ok n g /\
  (forall m s, exists e, @round_log10 rng m num_limit s = Raise e) /\
  (0 < num_limit -> forall m s, @round_log10 rng m num_limit s = Raise TypeError) /\
  chunk_count n num_limit g = floordiv n num_limit g /\
  (num_limit <> 0 -> chunk_count n num_limit g = Ok (n / num_limit) g) /\
  monte_carlo n num_limit workers g
  = (futures <- (n_range <- floordiv n num_limit ;;
                 ret (map (submit num_limit) (range n_range))) ;;
     results <- mapM (result workers) futures ;;
     ret (np_average results)) g.
Proof.
  intros Hlt; repeat split.
  - apply Z.leb_gt; exact Hlt.
  - rewrite Z.geb_leb; apply Z.leb_le; lia.
  - apply safe_n0_chunk; exact Hlt.
  - intros m s; apply round_log10_raises.
  - intros Hpos m s; unfold round_log10.
    destruct (Z.leb_spec num_limit 0); [lia|reflexivity].
  - apply chunk_count_chunk; exact Hlt.
  - intros Hnz; rewrite chunk_count_chunk by exact Hlt.
    apply floordiv_ok; exact Hnz.
  - unfold monte_carlo.
    destruct (Z.leb_spec n num_limit) as [?|_]; [lia|].
    unfold dispatch, chunk_count, bind.
    rewrite safe_n0_chunk by exact Hlt; reflexivity.
Qed.

(** C8, at [n = 5], [num_limit = 2]. *)
Lemma chunk_path_first_branch_witness :
  2 < 5 /\
  (5 <=? 2) = false /\
  (5 >=? 2) = true /\
  safe_n0 5 2 g0 = Ok 5 g0 /\
  (forall m s, exists e, @round_log10 rng m 2 s = Raise e) /\
  (0 < 2 -> forall m s, @round_log10 rng m 2 s = Raise TypeError) /\
  chunk_count 5 2 g0 = floordiv 5 2 g0 /\
  (2 <> 0 -> chunk_count 5 2 g0 = Ok (5 / 2) g0) /\
  monte_carlo 5 2 workers0 g0
  = (futures <- (n_range <- floordiv 5 2 ;;
                 ret (map (submit 2) (range n_range))) ;;
     results <- mapM (result workers0) futures ;;
     ret (np_average results)) g0.
Proof.
  assert (H1 : 2 < 5) by lia.
  split; [exact H1|].
  exact (chunk_path_first_branch 5 2 workers0 g0 H1).
Defined.

(** ** Invalid arguments *)

(** No call raises one of the two error kinds of the specification. *)
Lemma _monte_carlo_cases n g :
  _monte_carlo n g
  = if n <? 0 then Raise ValueError
    else if n =? 0 then Raise ZeroDivisionError
    else Ok (estimate_value n g) (advance (Z.to_nat n) (advance (Z.to_nat n) g)).
Proof.
  destruct (Z.ltb_spec n 0); [apply _monte_carlo_neg; assumption|].
  destruct (Z.eqb_spec n 0) as [->|]; [reflexivity|].
  apply _monte_carlo_pos; lia.
Qed.

Lemma monte_carlo_cases n limit workers g :
  monte_carlo n limit workers g
  = if n <=? limit then _monte_carlo n g
    else if limit =? 0 then Raise ZeroDivisionError
    else if limit <? 0 then Ok NaN g
    else Ok (np_average (chunk_estimates n limit workers)) g.
Proof.
  destruct (Z.leb_spec n limit); [apply monte_carlo_direct; assumption|].
  destruct (Z.eqb_spec limit 0) as [->|]; [apply monte_carlo_zero_limit; assumption|].
  destruct (Z.ltb_spec limit 0); [apply monte_carlo_neg_limit; assumption|].
  apply monte_carlo_chunk; lia.
Qed.

(** C5, as the code has it: there is no validation of the arguments and no
    [InvalidArgument].  [_monte_carlo] on a zero sample count raises
    [ZeroDivisionError] and on a negative one [ValueError]; [monte_carlo]
    with [n <= limit] fails as [_monte_carlo n] does, with [n > limit = 0]
    raises [ZeroDivisionError], and with [n > limit], [limit < 0] submits no
    task and returns NaN. *)
Theorem invalid_arguments_behaviour n limit workers g :
  n <= 0 \/ limit <= 0 ->
  (n <= 0 ->
   _monte_carlo n g
   = if n =? 0 then Raise ZeroDivisionError else Raise ValueError) /\
  monte_carlo n limit workers g
  = (if n <=? limit
     then if n =? 0 then Raise ZeroDivisionError else Raise ValueError
     else if limit =? 0 then Raise ZeroDivisionError else Ok NaN g) /\
  _monte_carlo n g <> Raise InvalidArgument /\
  monte_carlo n limit workers g <> Raise InvalidArgument.
Proof.
  intros Hinv.
  assert (He : n <= 0 ->
               _monte_carlo n g
               = if n =? 0 then Raise ZeroDivisionError else Raise ValueError).
  { intros Hn; rewrite _monte_carlo_cases.
    destruct (Z.ltb_spec n 0), (Z.eqb_spec n 0); try reflexivity; lia. }
  assert (Hm : monte_carlo n limit workers g
               = (if n <=? limit
                  then if n =? 0 then Raise ZeroDivisionError else Raise ValueError
                  else if limit =? 0 then Raise ZeroDivisionError else Ok NaN g)).
  { rewrite monte_carlo_cases.
    destruct (Z.leb_spec n limit); [apply He; lia|].
    destruct (Z.eqb_spec limit 0); [reflexivity|].
    destruct (Z.ltb_spec limit 0); [reflexivity|lia]. }
  repeat split.
  - exact He.
  - exact Hm.
  - rewrite _monte_carlo_cases.
    destruct (n <? 0); [discriminate|]; destruct (n =? 0); discriminate.
  - rewrite Hm.
    destruct (n <=? limit); [destruct (n =? 0); discriminate|].
    destruct (limit =? 0); discriminate.
Qed.

(** C5, at a zero sample count with the default limit. *)
Lemma invalid_arguments_behaviour_witness :
  (0 <= 0 \/ 1000000 <= 0) /\
  (0 <= 0 ->
   _monte_carlo 0 g0
   = if 0 =? 0 then Raise ZeroDivisionError else Raise ValueError) /\
  monte_carlo 0 1000000 workers0 g0
  = (if 0 <=? 1000000
     then if 0 =? 0 then Raise ZeroDivisionError else Raise ValueError
     else if 1000000 =? 0 then Raise ZeroDivisionError else Ok NaN g0) /\
  _monte_carlo 0 g0 <> Raise InvalidArgument /\
  monte_carlo 0 1000000 workers0 g0 <> Raise InvalidArgument.
Proof.
  assert (H1 : 0 <= 0 \/ 1000000 <= 0) by (left; lia).
  split; [exact H1|].
  exact (invalid_arguments_behaviour 0 1000000 workers0 g0 H1).
Defined.

(** C5 as stated fails: [_monte_carlo 0] raises [ZeroDivisionError],
    [_monte_carlo (-2)] raises [ValueError], [monte_carlo 5 0] raises
    [ZeroDivisionError] and [monte_carlo 5 (-1)] returns NaN; none of the
    four raises [InvalidArgument]. *)
Lemma invalid_argument_counterexample :
  observe (_monte_carlo 0 g0) = inr ZeroDivisionError /\
  observe (_monte_carlo (-2) g0) = inr ValueError /\
  observe (monte_carlo 0 1000000 workers0 g0) = inr ZeroDivisionError /\
  observe (monte_carlo 5 0 workers0 g0) = inr ZeroDivisionError /\
  observe (monte_carlo 5 (-1) workers0 g0) = inl NaN /\
  ~ (forall n limit workers g,
        n <= 0 \/ limit <= 0 ->
        observe (monte_carlo n limit workers g) = inr InvalidArgument) /\
  ~ (forall n g, n <= 0 -> observe (_monte_carlo n g) = inr InvalidArgument).
Proof.
  repeat split; try reflexivity.
  - intros H; specialize (H 0 1000000 workers0 g0 (or_introl (Z.le_refl 0))).
    discriminate H.
  - intros H; specialize (H 0 g0 (Z.le_refl 0)); discriminate H.
Qed.

(** C6, as the code has it: [monte_carlo 0 limit] raises
    [ZeroDivisionError] for every [limit >= 0] (the division by [n] in
    [_monte_carlo]) and returns NaN for [limit < 0]; it never raises
    [InvalidArgument] and never returns 0.0. *)
Theorem monte_carlo_zero_samples limit workers g :
  monte_carlo 0 limit workers g
  = (if 0 <=? limit then Raise ZeroDivisionError else Ok NaN g) /\
  monte_carlo 0 limit workers g <> Raise InvalidArgument /\
  (forall q g', monte_carlo 0 limit workers g <> Ok (Fin q) g').
Proof.
  assert (Hm : monte_carlo 0 limit workers g
               = (if 0 <=? limit then Raise ZeroDivisionError else Ok NaN g)).
  { rewrite monte_carlo_cases.
    destruct (Z.leb_spec 0 limit); [reflexivity|].
    destruct (Z.eqb_spec limit 0); [lia|].
    destruct (Z.ltb_spec limit 0); [reflexivity|lia]. }
  rewrite Hm; repeat split.
  - destruct (0 <=? limit); discriminate.
  - intros q g'; destruct (0 <=? limit); discriminate.
Qed.

(** C6 as stated fails: [monte_carlo 0 1_000_000] raises
    [ZeroDivisionError], which is neither [InvalidArgument] nor a returned
    0.0. *)
Lemma zero_samples_counterexample :
  observe (monte_carlo 0 1000000 workers0 g0) = inr ZeroDivisionError /\
  ~ (observe (monte_carlo 0 1000000 workers0 g0) = inr InvalidArgument \/
     exists q, observe (monte_carlo 0 1000000 workers0 g0) = inl (Fin q) /\
               (q == 0)%Q).
Proof.
  split; [reflexivity|].
  intros [H|[q [H _]]]; discriminate H.
Qed.

(** ** Facts on the built-in estimator *)

Lemma bindB_ok {S A B} (m : MB S A) (k : A -> MB S B) s a s' :
  m s = OkB a s' -> bindB m k s = k a s'.
Proof. unfold bindB; intros ->; reflexivity. Qed.

Lemma mapMB_ok {S A B} (f : A -> MB S B) (h : A -> B) (l : list A) s :
  (forall a, In a l -> f a s = OkB (h a) s) ->
  mapMB f l s = OkB (map h l) s.
Proof.
  induction l as [|a l IH]; intros Hf; [reflexivity|].
  cbn [mapMB map].
  rewrite (bindB_ok _ _ _ _ _ (Hf a (or_introl eq_refl))).
  rewrite (bindB_ok _ _ _ _ _ (IH (fun b Hb => Hf b (or_intror Hb)))).
  reflexivity.
Qed.

(** [k] calls of [random.random()] give the next [k] samples. *)
Lemma mapMB_random {A} (l : list A) g :
  mapMB (fun _ => random_random) l g
  = OkB (map g (seq 0 (length l))) (advance (length l) g).
Proof.
  revert g; induction l as [|a l IH]; intros g; [reflexivity|].
  cbn [mapMB length].
  rewrite (bindB_ok _ _ g (g 0%nat) (advance 1 g)) by reflexivity.
  rewrite (bindB_ok _ _ _ _ _ (IH (advance 1 g))).
  unfold retB; f_equal.
  cbn [seq map]; f_equal.
  rewrite <- seq_shift, map_map; reflexivity.
Qed.

Lemma nth_error_map_seq (g : rng) k i :
  (i < k)%nat -> nth_error (map g (seq 0 k)) i = Some (g i).
Proof.
  intros Hi.
  rewrite (nth_error_nth' _ (g 0%nat)) by (rewrite length_map, length_seq; exact Hi).
  rewrite map_nth, seq_nth by exact Hi; reflexivity.
Qed.

Lemma combine_map_seq (g g' : rng) (l : list nat) :
  combine (map g l) (map g' l) = map (fun i => (g i, g' i)) l.
Proof. induction l as [|i l IH]; cbn; [reflexivity|]; rewrite IH; reflexivity. Qed.

(** The comprehension of line 28 over the samples drawn at lines 26 and 27:
    every subscript is in range. *)
Lemma mapMB_norms {S} (g g' : rng) k (s : S) :
  mapMB (fun i => xi <~ getitem (map g (seq 0 k)) i ;;
                  yi <~ getitem (map g' (seq 0 k)) i ;;
                  retB (xi * xi + yi * yi)%Q) (seq 0 k) s
  = OkB (map norm2 (combine (map g (seq 0 k)) (map g' (seq 0 k)))) s.
Proof.
  rewrite combine_map_seq, map_map.
  apply mapMB_ok; intros i Hi; apply in_seq in Hi.
  unfold bindB, getitem.
  rewrite !nth_error_map_seq by lia; reflexivity.
Qed.

(** The built-in estimator on any [n]: the division of line 29 on the count
    of the points inside, after [2 * n] samples were drawn. *)
Lemma old_monte_carlo_unfold n g :
  old_monte_carlo n g
  = (r <~ liftB (truediv (count_inside n g) n) ;; retB (fmul r (Fin 4)))
      (advance (Z.to_nat n) (advance (Z.to_nat n) g)).
Proof.
  unfold old_monte_carlo, range.
  set (k := Z.to_nat n).
  erewrite bindB_ok by (rewrite mapMB_random, length_seq; reflexivity).
  erewrite bindB_ok by (rewrite mapMB_random, length_seq; reflexivity).
  erewrite bindB_ok by apply mapMB_norms.
  cbv zeta; rewrite filter_map_length.
  reflexivity.
Qed.

Lemma Qzero_div_mul (n : Z) : (inject_Z 0 / inject_Z n * 4 == 0)%Q.
Proof. unfold Qdiv; change (inject_Z 0) with 0%Q; ring. Qed.

(** X1: on a sample count [n >= 0] and the same samples, [old_monte_carlo]
    and [_monte_carlo] do the same: the same value or the same exception,
    and the same generator state afterwards. *)
Theorem old_monte_carlo_agrees n g :
  0 <= n -> old_monte_carlo n g = liftB (_monte_carlo n) g.
Proof.
  intros Hn; rewrite old_monte_carlo_unfold.
  unfold liftB, bindB; rewrite _monte_carlo_cases.
  destruct (Z.ltb_spec n 0) as [?|_]; [lia|].
  unfold truediv; destruct (n =? 0); reflexivity.
Qed.

(** X1, at [n = 5] on the example stream. *)
Lemma old_monte_carlo_agrees_witness :
  0 <= 5 /\ old_monte_carlo 5 g0 = liftB (_monte_carlo 5) g0.
Proof.
  assert (H : 0 <= 5) by lia.
  split; [exact H|exact (old_monte_carlo_agrees 5 g0 H)].
Defined.

(** X2: on a negative sample count the two estimators differ:
    [old_monte_carlo] draws no sample and returns zero ([0 / n * 4]), where
    [_monte_carlo] raises [ValueError]. *)
Theorem old_monte_carlo_negative n g :
  n < 0 ->
  (exists q, old_monte_carlo n g = OkB (Fin q) g /\ (q == 0)%Q) /\
  _monte_carlo n g = Raise ValueError.
Proof.
  intros Hn; split; [|apply _monte_carlo_neg; exact Hn].
  exists (inject_Z 0 / inject_Z n * 4)%Q; split; [|apply Qzero_div_mul].
  rewrite old_monte_carlo_unfold.
  replace (Z.to_nat n) with 0%nat by lia.
  replace (count_inside n g) with 0.
  - unfold bindB, liftB, truediv.
    destruct (Z.eqb_spec n 0); [lia|reflexivity].
  - unfold count_inside, points.
    replace (Z.to_nat n) with 0%nat by lia; reflexivity.
Qed.

(** X2, at [n = -3] on the example stream. *)
Lemma old_monte_carlo_negative_witness :
  -3 < 0 /\
  (exists q, old_monte_carlo (-3) g0 = OkB (Fin q) g0 /\ (q == 0)%Q) /\
  _monte_carlo (-3) g0 = Raise ValueError.
Proof.
  assert (H : -3 < 0) by lia.
  split; [exact H|exact (old_monte_carlo_negative (-3) g0 H)].
Defined.

(** X3: [old_monte_carlo] raises exactly when [n = 0], and then
    [ZeroDivisionError]; the subscripts of line 28 never raise [IndexError];
    on every other [n] it returns a value of [0, 4]. *)
Theorem old_monte_carlo_raises_iff_zero n g :
  (forall e, old_monte_carlo n g = RaiseB e ->
             n = 0 /\ e = Builtin ZeroDivisionError) /\
  (n = 0 -> old_monte_carlo n g = RaiseB (Builtin ZeroDivisionError)) /\
  (n <> 0 -> exists q g', old_monte_carlo n g = OkB (Fin q) g' /\ (0 <= q <= 4)%Q).
Proof.
  assert (H0 : n = 0 -> old_monte_carlo n g = RaiseB (Builtin ZeroDivisionError)).
  { intros ->; reflexivity. }
  assert (Hnz : n <> 0 ->
                exists q g', old_monte_carlo n g = OkB (Fin q) g' /\ (0 <= q <= 4)%Q).
  { intros Hn; destruct (Z.lt_ge_cases n 0) as [Hneg|Hpos].
    - destruct (old_monte_carlo_negative n g Hneg) as [[q [Hq Hz]] _].
      exists q, g; split; [exact Hq|]. rewrite Hz; split; discriminate.
    - rewrite old_monte_carlo_agrees by exact Hpos.
      unfold liftB; rewrite _monte_carlo_pos by lia.
      do 2 eexists; split; [reflexivity|].
      apply (estimate_value_in_0_4 n g); lia. }
  repeat split; try assumption.
  - destruct (Z.eq_dec n 0) as [Hz|Hz]; [exact Hz|].
    destruct (Hnz Hz) as [q [g' [Hq _]]]; congruence.
  - destruct (Z.eq_dec n 0) as [Hz|Hz]; [rewrite (H0 Hz) in H; congruence|].
    destruct (Hnz Hz) as [q [g' [Hq _]]]; congruence.
Qed.

(** ** What the estimators read and how far they advance the generator *)

Lemma agree_weaken k k' g g' : (k' <= k)%nat -> agree k g g' -> agree k' g g'.
Proof. intros Hle H i Hi; apply H; lia. Qed.

Lemma points_agree n g g' :
  agree (2 * Z.to_nat n) g g' -> points n g = points n g'.
Proof.
  intros H; unfold points; cbv zeta; f_equal.
  - apply map_ext_in; intros i Hi; apply in_seq in Hi; apply H; lia.
  - apply map_ext_in; intros i Hi; apply in_seq in Hi.
    unfold advance; apply H; lia.
Qed.

Lemma estimate_value_agree n g g' :
  agree (2 * Z.to_nat n) g g' -> estimate_value n g = estimate_value n g'.
Proof.
  intros H; unfold estimate_value, count_inside.
  rewrite (points_agree n g g' H); reflexivity.
Qed.

(** X4: what [_monte_carlo n] returns or raises depends on the generator
    only through its next [2 * n] samples. *)
Theorem _monte_carlo_reads_2n n g g' :
  agree (2 * Z.to_nat n) g g' ->
  observe (_monte_carlo n g) = observe (_monte_carlo n g').
Proof.
  intros H; rewrite !_monte_carlo_cases.
  destruct (n <? 0); [reflexivity|]; destruct (n =? 0); [reflexivity|].
  cbn [observe]; rewrite (estimate_value_agree n g g' H); reflexivity.
Qed.

Lemma g0_then_zero_agree : agree (2 * Z.to_nat 5) g0 g0_then_zero.
Proof.
  intros i Hi; unfold g0_then_zero.
  destruct (Nat.ltb_spec i 10) as [_|Hge]; [reflexivity|].
  change (2 * Z.to_nat 5)%nat with 10%nat in Hi; lia.
Qed.

(** X4, at [n = 5] on two streams that differ from the eleventh sample on. *)
Lemma _monte_carlo_reads_2n_witness :
  agree (2 * Z.to_nat 5) g0 g0_then_zero /\
  observe (_monte_carlo 5 g0) = observe (_monte_carlo 5 g0_then_zero).
Proof.
  split; [exact g0_then_zero_agree|].
  exact (_monte_carlo_reads_2n 5 g0 g0_then_zero g0_then_zero_agree).
Defined.

(** X5: a call [_monte_carlo n] that returns leaves the generator exactly
    [2 * n] samples further: the sample [i] after the call is the sample
    [2 * n + i] before it. *)
Theorem _monte_carlo_advances_2n n g v g' :
  _monte_carlo n g = Ok v g' ->
  1 <= n /\ forall i, g' i = g (2 * Z.to_nat n + i)%nat.
Proof.
  rewrite _monte_carlo_cases.
  destruct (Z.ltb_spec n 0); [discriminate|].
  destruct (Z.eqb_spec n 0); [discriminate|].
  intros [= _ <-]; split; [lia|].
  intros i; unfold advance; f_equal; lia.
Qed.

(** X5, at [n = 5] on the example stream. *)
Lemma _monte_carlo_advances_2n_witness :
  _monte_carlo 5 g0
  = Ok (estimate_value 5 g0) (advance (Z.to_nat 5) (advance (Z.to_nat 5) g0)) /\
  1 <= 5 /\
  forall i, advance (Z.to_nat 5) (advance (Z.to_nat 5) g0) i
            = g0 (2 * Z.to_nat 5 + i)%nat.
Proof.
  assert (H : _monte_carlo 5 g0
              = Ok (estimate_value 5 g0)
                   (advance (Z.to_nat 5) (advance (Z.to_nat 5) g0)))
    by reflexivity.
  split; [exact H|].
  exact (_monte_carlo_advances_2n 5 g0 _ _ H).
Defined.



(** X7: on the chunked path the outcome depends on the workers only through
    the next [2 * num_limit] samples of the first [n // num_limit] tasks. *)
Theorem monte_carlo_chunked_reads n num_limit workers workers' g :
  num_limit < n ->
  (forall task, Z.of_nat task < n / num_limit ->
                agree (2 * Z.to_nat num_limit) (workers task) (workers' task)) ->
  monte_carlo n num_limit workers g = monte_carlo n num_limit workers' g.
Proof.
  intros Hlt H; rewrite !monte_carlo_cases.
  destruct (Z.leb_spec n num_limit); [lia|].
  destruct (num_limit =? 0); [reflexivity|].
  destruct (num_limit <? 0); [reflexivity|].
  f_equal; f_equal; unfold chunk_estimates.
  apply map_ext_in; intros task Ht; apply in_seq in Ht.
  apply estimate_value_agree, H; lia.
Qed.

Lemma workers0_then_zero_agree task :
  Z.of_nat task < 5 / 2 ->
  agree (2 * Z.to_nat 2) (workers0 task) (workers0_then_zero task).
Proof.
  intros Ht i Hi; unfold workers0_then_zero.
  change (5 / 2) with 2 in Ht.
  change (2 * Z.to_nat 2)%nat with 4%nat in Hi.
  destruct (Nat.ltb_spec task 2); [|lia].
  destruct (Nat.ltb_spec i 4); [reflexivity|lia].
Qed.

(** X7, at [n = 5], [num_limit = 2]. *)
Lemma monte_carlo_chunked_reads_witness :
  2 < 5 /\
  (forall task, Z.of_nat task < 5 / 2 ->
                agree (2 * Z.to_nat 2) (workers0 task) (workers0_then_zero task)) /\
  monte_carlo 5 2 workers0 g0 = monte_carlo 5 2 workers0_then_zero g0.
Proof.
  assert (H : 2 < 5) by lia.
  split; [exact H|]. split; [exact workers0_then_zero_agree|].
  exact (monte_carlo_chunked_reads 5 2 workers0 workers0_then_zero g0 H
           workers0_then_zero_agree).
Defined.

(** ** The aggregate as a pooled estimate *)










(** X9: above the limit the result depends on [n] only through the
    quotient [n // num_limit]. *)
Theorem monte_carlo_same_quotient n n' num_limit workers g :
  num_limit < n -> num_limit < n' -> n / num_limit = n' / num_limit ->
  monte_carlo n num_limit workers g = monte_carlo n' num_limit workers g.
Proof.
  intros Hn Hn' Hq; rewrite !monte_carlo_cases.
  destruct (Z.leb_spec n num_limit); [lia|].
  destruct (Z.leb_spec n' num_limit); [lia|].
  unfold chunk_estimates; rewrite Hq; reflexivity.
Qed.

(** X9, at [n = 4] and [n' = 5] with [num_limit = 2]. *)
Lemma monte_carlo_same_quotient_witness :
  2 < 4 /\ 2 < 5 /\ 4 / 2 = 5 / 2 /\
  monte_carlo 4 2 workers0 g0 = monte_carlo 5 2 workers0 g0.
Proof.
  assert (H1 : 2 < 4) by lia.
  assert (H2 : 2 < 5) by lia.
  assert (H3 : 4 / 2 = 5 / 2) by reflexivity.
  split; [exact H1|]. split; [exact H2|]. split; [exact H3|].
  exact (monte_carlo_same_quotient 4 5 2 workers0 g0 H1 H2 H3).
Defined.




(** ** Which calls return, and which fail how *)



